(** * The [evented] class decorator of psygnal

    A shallow embedding of [src/psygnal/_evented_decorator.py].

    The decorator is a thin wrapper: it binds its keyword arguments, builds
    a [SignalGroupDescriptor] from them, tells the descriptor under which
    name it is bound ([__set_name__]) and stores it on the class with
    [setattr].  The class is mutated in place, so classes are objects of a
    heap and the decorator is a computation over that heap which may raise.

    [SignalGroupDescriptor] lives in [psygnal._group_descriptor]; the
    decorator only calls it.  Its two entry points are therefore taken as
    an interface ([descriptor_class]), and every call the decorator makes
    through that interface is recorded in a log, so that what the decorator
    forwards is observable whatever the descriptor does with it.

    The builtin [setattr] may itself raise: a built-in class, or a class
    whose metaclass protects the name, refuses the assignment.  The world
    says which objects refuse which names, and with what exception. *)

From stdpp Require Import base option gmap strings list.
From Stdlib Require Import ZArith Ascii.

(** ** Python values and objects *)

(** Object identity (what [id] returns). *)
Abbreviation addr := positive.

(** The local variables of one call of [evented]: its keyword parameters
    once bound (lines 58-63).  [_decorate] closes over them. *)
Record locals : Type := Locals {
  events_namespace : string;
  equality_operators : option (gmap string addr);
  warn_on_no_fields : bool;
  cache_on_instance : bool;
  alias_private_fields : option bool;
  signal_suffix : string;
}.

(** Values.  [VType c] is a class (an instance of [type]) of identity [c];
    [VObject o] is any other object with an attribute dictionary;
    [VFunction env] is the function object [_decorate] closed over the
    locals [env] of the call of [evented] that created it. *)
Inductive value : Type :=
| VNone
| VBool (b : bool)
| VInt (n : Z)
| VStr (s : string)
| VDict (items : gmap string addr)
| VType (c : addr)
| VObject (o : addr)
| VFunction (env : locals).

(** [isinstance(v, type)] *)
Definition isinstance_type (v : value) : bool :=
  match v with
  | VType _ => true
  | _ => false
  end.

(** [v is None] *)
Definition is_None (v : value) : bool :=
  match v with
  | VNone => true
  | _ => false
  end.

(** Exceptions: the class name and the message. *)
Record PyExc : Type := Exc {
  exc_class : string;
  exc_message : string;
}.

Definition TypeError (msg : string) : PyExc := Exc "TypeError" msg.
Definition AttributeError (msg : string) : PyExc := Exc "AttributeError" msg.

(** The heap maps the identity of an object to its attribute dictionary
    ([__dict__]). *)
Abbreviation heap := (gmap addr (gmap string value)).

Definition getattr (h : heap) (o : addr) (name : string) : option value :=
  h !! o ≫= (.!! name).

Definition setattr (o : addr) (name : string) (v : value) (h : heap) : heap :=
  <[o := <[name := v]> (default ∅ (h !! o))]> h.

(** ** The descriptor class, as the decorator sees it *)

(** The keyword arguments of [SignalGroupDescriptor(...)]. *)
Record SGD_kwargs : Type := SGDKwargs {
  sgd_equality_operators : option (gmap string addr);
  sgd_warn_on_no_fields : bool;
  sgd_cache_on_instance : bool;
  sgd_alias_private_fields : option bool;
  sgd_signal_suffix : string;
}.

(** What the decorator needs of the class: [__init__] on a newly allocated
    instance, and [__set_name__(owner, name)].  Either may change the heap
    and either may raise; changes made before a raise persist. *)
Record descriptor_class : Type := DescriptorClass {
  sgd_init : SGD_kwargs → addr → heap → heap * (PyExc + unit);
  sgd_set_name : addr → value → string → heap → heap * (PyExc + unit);
}.

(** ** Computations *)

(** The calls the decorator itself makes, in order.  [EvSetattr] is a
    [setattr] that stored its value, [EvSetattrRaised] one that was refused
    and stored nothing.  What the constructor and the hook of the
    descriptor do inside their calls is not logged; it shows in the heap
    they return. *)
Inductive event : Type :=
| EvConstruct (d : addr) (kw : SGD_kwargs)
| EvSetName (d : addr) (owner : value) (name : string)
| EvSetattr (o : addr) (name : string) (v : value)
| EvSetattrRaised (o : addr) (name : string) (v : value).

(** [refusal_of w o name] is the exception with which object [o] refuses
    the assignment of attribute [name], if it does: [TypeError] for a
    built-in class such as [int], whose attributes cannot be set; what the
    [__setattr__] of its type raises for a class whose metaclass protects
    the name.  It is a matter of the type of [o] and no call changes it. *)
Record world : Type := World {
  heap_of : heap;
  log_of : list event;
  refusal_of : addr → string → option PyExc;
}.

(** A computation transforms the world and returns a value or raises. *)
Definition M (A : Type) : Type := world → world * (PyExc + A).

#[global] Instance M_ret : MRet M := λ A a w, (w, inr a).

#[global] Instance M_bind : MBind M := λ A B f m w,
  match m w with
  | (w', inr a) => f a w'
  | (w', inl e) => (w', inl e)
  end.

Definition raise {A : Type} (e : PyExc) : M A := λ w, (w, inl e).

(** The builtin [setattr(obj, name, v)]: the value is stored in the
    dictionary of the object, unless the object refuses the assignment;
    then the exception is raised and nothing is stored.  [_decorate] calls
    it on a class only; a value without a dictionary has no attribute to
    set. *)
Definition builtin_setattr (obj : value) (name : string) (v : value) : M unit :=
  match obj with
  | VType o | VObject o => λ w,
      match refusal_of w o name with
      | Some e =>
          (World (heap_of w) (log_of w ++ [EvSetattrRaised o name v])
                 (refusal_of w),
           inl e)
      | None =>
          (World (setattr o name v (heap_of w)) (log_of w ++ [EvSetattr o name v])
                 (refusal_of w),
           inr ())
      end
  | _ => raise (AttributeError ("object has no attribute '" +:+ name +:+ "'"))
  end.

(** ** The decorator *)

(** The keyword arguments [evented] is called with; [None] is a keyword
    the caller left out. *)
Record kwargs : Type := Kwargs {
  kw_events_namespace : option string;
  kw_equality_operators : option (option (gmap string addr));
  kw_warn_on_no_fields : option bool;
  kw_cache_on_instance : option bool;
  kw_alias_private_fields : option (option bool);
  kw_signal_suffix : option string;
}.

(** A call with no keyword at all. *)
Definition no_kwargs : kwargs := Kwargs None None None None None None.

(** Binding of the keyword parameters to their defaults (lines 58-63). *)
Definition bind_kwargs (kw : kwargs) : locals := {|
  events_namespace := default "events" (kw_events_namespace kw);
  equality_operators := default None (kw_equality_operators kw);
  warn_on_no_fields := default true (kw_warn_on_no_fields kw);
  cache_on_instance := default true (kw_cache_on_instance kw);
  alias_private_fields := default None (kw_alias_private_fields kw);
  signal_suffix := default "" (kw_signal_suffix kw);
|}.

(** The three settings of [alias_private_fields], as the docstring gives
    them (lines 103-110). *)
Inductive alias_policy : Type :=
| StripUnderscore
| SkipPrivate
| PassAsIs.

Definition alias_policy_of (o : option bool) : alias_policy :=
  match o with
  | Some true => StripUnderscore
  | Some false => SkipPrivate
  | None => PassAsIs
  end.

(** The keyword arguments of the constructor call of lines 146-152. *)
Definition descriptor_kwargs (env : locals) : SGD_kwargs := {|
  sgd_equality_operators := equality_operators env;
  sgd_warn_on_no_fields := warn_on_no_fields env;
  sgd_cache_on_instance := cache_on_instance env;
  sgd_alias_private_fields := alias_private_fields env;
  sgd_signal_suffix := signal_suffix env;
|}.

Section Decorator.

Variable impl : descriptor_class.

(** The call [SignalGroupDescriptor(...)] with keywords [kw]: a new
    object, whose identity no live object has, is allocated and [__init__]
    runs on it. *)
Definition SignalGroupDescriptor (kw : SGD_kwargs) : M addr := λ w,
  let d := fresh (dom (heap_of w)) in
  let '(h, r) := sgd_init impl kw d (<[d := ∅]> (heap_of w)) in
  (World h (log_of w ++ [EvConstruct d kw]) (refusal_of w),
   match r with
   | inl e => inl e
   | inr _ => inr d
   end).

(** [descriptor.__set_name__(owner, name)] *)
Definition __set_name__ (d : addr) (owner : value) (name : string) : M unit := λ w,
  let '(h, r) := sgd_set_name impl d owner name (heap_of w) in
  (World h (log_of w ++ [EvSetName d owner name]) (refusal_of w), r).

(** Lines 142-156. *)
Definition _decorate (env : locals) (cls : value) : M value :=
  if negb (isinstance_type cls) then
    raise (TypeError "evented can only be used on classes")
  else
    descriptor ← SignalGroupDescriptor (descriptor_kwargs env);
    _ ← __set_name__ descriptor cls (events_namespace env);
    _ ← builtin_setattr cls (events_namespace env) (VObject descriptor);
    mret cls.

(** Lines 55-64 and 158.  [cls] is [None] when the positional argument is
    left out. *)
Definition evented (cls : option value) (kw : kwargs) : M value :=
  let cls := default VNone cls in
  let env := bind_kwargs kw in
  if negb (is_None cls) then _decorate env cls else mret (VFunction env).

(** Calling a function object made by [evented]: the body of [_decorate]
    runs with the locals it closed over.  These functions are the only
    callables among the values here: the decorator calls nothing else, and
    what calling a class or another object would do is not represented. *)
Definition call_function (f : value) (arg : value) : M value :=
  match f with
  | VFunction env => _decorate env arg
  | _ => raise (TypeError "object is not callable")
  end.

End Decorator.

(** ** The descriptor class of the spec *)

(** The name under which a class is marked as evented (line 23). *)
Definition PSYGNAL_GROUP_NAME : string := "_psygnal_group_".

(** Modelled from the spec: the error class of section 7, raised at
    configuration time for a type that is not a record, a malformed name
    mapping and a double installation.  It belongs to
    [psygnal._group_descriptor], which is not among the sources. *)
Definition ConfigurationError (msg : string) : PyExc := Exc "ConfigurationError" msg.

(** Modelled from the spec: the public notification name of a field
    (section 4.1), for the naming rules of [psygnal._group_descriptor],
    which is not among the sources.  A private-looking field, whose name
    begins with the marker [_], has the marker stripped, is excluded, or
    keeps its name, by the three-way switch; then the suffix is appended. *)
Definition public_name (alias : option bool) (suffix field : string) : option string :=
  match field with
  | String a rest =>
      if bool_decide (a = "_"%char) then
        match alias_policy_of alias with
        | StripUnderscore => Some (rest +:+ suffix)
        | SkipPrivate => None
        | PassAsIs => Some (field +:+ suffix)
        end
      else Some (field +:+ suffix)
  | EmptyString => Some (field +:+ suffix)
  end.

(** Modelled from the spec: the field descriptors of a record type
    (sections 3 and 4.1), computed by [psygnal._group_descriptor], which is
    not among the sources: the table from public notification name to
    field.  Two fields with one public name are a malformed mapping: there
    is no table. *)
Fixpoint name_table (alias : option bool) (suffix : string)
    (fields : list (string * addr)) : option (gmap string addr) :=
  match fields with
  | [] => Some ∅
  | (field, a) :: rest =>
      match name_table alias suffix rest with
      | None => None
      | Some table =>
          match public_name alias suffix field with
          | None => Some table
          | Some n =>
              match table !! n with
              | Some _ => None
              | None => Some (<[n := a]> table)
              end
          end
      end
  end.

(** Modelled from the spec: [SignalGroupDescriptor.__init__] of
    [psygnal._group_descriptor], which is not among the sources.  The
    options of section 6 are kept on the new object, under their names. *)
Definition lazy_init (kw : SGD_kwargs) (self : addr) (h : heap) : heap * (PyExc + unit) :=
  (<[self := list_to_map [
      ("equality_operators", from_option VDict VNone (sgd_equality_operators kw));
      ("warn_on_no_fields", VBool (sgd_warn_on_no_fields kw));
      ("cache_on_instance", VBool (sgd_cache_on_instance kw));
      ("alias_private_fields", from_option VBool VNone (sgd_alias_private_fields kw));
      ("signal_suffix", VStr (sgd_signal_suffix kw))
    ]]> h, inr ()).

(** Modelled from the spec: [SignalGroupDescriptor.__set_name__] of
    [psygnal._group_descriptor], which is not among the sources: the
    configuration of a record type, all of it at configuration time
    (sections 3, 4.1, 4.3 and 7).  An owner that is already configured is
    refused (double installation), and so is one that is not a record
    type, a class with a field list ([__dataclass_fields__], the
    dataclass of the docstring's example), and one whose fields collide
    under the naming rules; each with [ConfigurationError] and nothing
    changed.  Otherwise the field descriptors are computed and kept on the
    descriptor with the name of the namespace, and the owner is marked.
    The notification group of an instance is created later, on first
    access, and the warning for an empty field list, which is not fatal and
    changes nothing, is not represented. *)
Definition lazy_set_name (self : addr) (owner : value) (name : string) (h : heap)
    : heap * (PyExc + unit) :=
  match owner with
  | VType c =>
      match getattr h c PSYGNAL_GROUP_NAME with
      | Some _ => (h, inl (ConfigurationError "class is already evented"))
      | None =>
          match getattr h c "__dataclass_fields__" with
          | Some (VDict fields) =>
              let alias :=
                match getattr h self "alias_private_fields" with
                | Some (VBool b) => Some b
                | _ => None
                end in
              let suffix :=
                match getattr h self "signal_suffix" with
                | Some (VStr s) => s
                | _ => ""
                end in
              match name_table alias suffix (map_to_list fields) with
              | None => (h, inl (ConfigurationError "conflicting signal names"))
              | Some table =>
                  (setattr c PSYGNAL_GROUP_NAME (VStr name)
                     (setattr self "signal_names" (VDict table)
                        (setattr self "namespace_name" (VStr name) h)),
                   inr ())
              end
          | _ => (h, inl (ConfigurationError "class is not a record type"))
          end
      end
  | _ => (h, inl (ConfigurationError "class is not a record type"))
  end.

(** Modelled from the spec: the class [SignalGroupDescriptor] of
    [psygnal._group_descriptor], which the decorator imports (line 13) and
    which is not among the sources; see [lazy_init] and [lazy_set_name].
    The theorems that do not name it hold for every [descriptor_class]. *)
Definition lazy_descriptor : descriptor_class := {|
  sgd_init := lazy_init;
  sgd_set_name := lazy_set_name;
|}.

(** ** A world to run the decorator in *)

(** The class of the docstring's example (lines 130-139): the dataclass
    [Person] with the fields [name] and [age], and the class attribute
    [age = 0] the default leaves. *)
Definition Person : addr := 1%positive.

(** The built-in class [int]: not a dataclass, and no attribute of it can
    be set. *)
Definition int_class : addr := 2%positive.

(** A dataclass whose metaclass has a read-only property [events]. *)
Definition Locked : addr := 3%positive.

Definition name_field : addr := 4%positive.
Definition age_field : addr := 5%positive.

Definition heap0 : heap :=
  list_to_map [
    (Person, list_to_map [
       ("age", VInt 0);
       ("__dataclass_fields__",
        VDict (list_to_map [("name", name_field); ("age", age_field)]))]);
    (int_class, ∅);
    (Locked, list_to_map [
       ("__dataclass_fields__", VDict (list_to_map [("name", name_field)]))]);
    (name_field, ∅);
    (age_field, ∅)
  ].

Definition refusal0 (o : addr) (name : string) : option PyExc :=
  if bool_decide (o = int_class) then
    Some (TypeError
            ("cannot set '" +:+ name +:+ "' attribute of immutable type 'int'"))
  else if bool_decide (o = Locked ∧ name = "events") then
    Some (AttributeError "property 'events' of 'Meta' object has no setter")
  else None.

Definition world0 : world := World heap0 [] refusal0.

(** [evented(Person)], and [evented(Person)] once more. *)
Definition decorated_once : world * (PyExc + value) :=
  evented lazy_descriptor (Some (VType Person)) no_kwargs world0.

Definition decorated_twice : world * (PyExc + value) :=
  evented lazy_descriptor (Some (VType Person)) no_kwargs decorated_once.1.

(** [evented(Locked)]: the descriptor accepts the class, the class refuses
    the attribute. *)
Definition decorated_Locked : world * (PyExc + value) :=
  evented lazy_descriptor (Some (VType Locked)) no_kwargs world0.

(** [evented(Person, events_namespace="signals")]. *)
Definition signals_kwargs : kwargs :=
  Kwargs (Some "signals") None None None None None.

(** The heap the descriptor class leaves when class [c] is decorated from
    heap [h] with the locals [env]: the constructor has run on the new
    object and, if it returned, the hook.  The decorator has not yet
    stored the descriptor on the class. *)
Definition descriptor_heap (impl : descriptor_class) (env : locals) (c : addr)
    (h : heap) : heap :=
  let d := fresh (dom h) in
  match sgd_init impl (descriptor_kwargs env) d (<[d := ∅]> h) with
  | (h1, inl _) => h1
  | (h1, inr _) => (sgd_set_name impl d (VType c) (events_namespace env) h1).1
  end.

Definition bootstrapped0 : heap :=
  descriptor_heap lazy_descriptor (bind_kwargs no_kwargs) Person (heap_of world0).

(** ** Predicates of the statements *)

(** The run [r] raised an exception of class [cname]. *)
Definition fails_with {A : Type} (cname : string) (r : world * (PyExc + A)) : Prop :=
  ∃ msg, r.2 = inl (Exc cname msg).

(** The descriptor's share of decorating class [c] from heap [h] with the
    locals [env]: the constructor, on the new object, then the hook.  Both
    return, and leave the heap [h2]. *)
Definition bootstraps (impl : descriptor_class) (env : locals) (c : addr)
    (h h2 : heap) : Prop :=
  let d := fresh (dom h) in
  ∃ h1,
    sgd_init impl (descriptor_kwargs env) d (<[d := ∅]> h) = (h1, inr ()) ∧
    sgd_set_name impl d (VType c) (events_namespace env) h1 = (h2, inr ()).

(** Class [c] is marked as evented in heap [h]. *)
Definition configured (h : heap) (c : addr) : Prop :=
  is_Some (getattr h c PSYGNAL_GROUP_NAME).

(** The three calls of one successful decoration, in order. *)
Definition decoration_log (env : locals) (c d : addr) : list event :=
  [ EvConstruct d (descriptor_kwargs env);
    EvSetName d (VType c) (events_namespace env);
    EvSetattr c (events_namespace env) (VObject d) ].

(** An event is a [setattr] that stored its value. *)
Definition is_setattr (ev : event) : bool :=
  match ev with
  | EvSetattr _ _ _ => true
  | _ => false
  end.

(** ** The outcomes of a call *)

(** The six ways a call [evented(cls, ...)] ends, read off lines 142-158:
    without a class the function is returned; an argument that is not a
    class is refused; on a class the constructor may raise, then the hook
    may raise, then the [setattr] may raise, and otherwise the descriptor
    is stored and the class returned.  Each outcome carries the world it
    leaves. *)
Inductive outcome (impl : descriptor_class) (cls : option value) (kw : kwargs)
    (w : world) : world * (PyExc + value) → Prop :=
| OutFunction :
    is_None (default VNone cls) = true →
    outcome impl cls kw w (w, inr (VFunction (bind_kwargs kw)))
| OutNotClass (v : value) :
    cls = Some v →
    is_None v = false →
    isinstance_type v = false →
    outcome impl cls kw w
      (w, inl (TypeError "evented can only be used on classes"))
| OutConstructorRaised (c : addr) (h1 : heap) (e : PyExc) :
    cls = Some (VType c) →
    sgd_init impl (descriptor_kwargs (bind_kwargs kw)) (fresh (dom (heap_of w)))
      (<[fresh (dom (heap_of w)) := ∅]> (heap_of w)) = (h1, inl e) →
    outcome impl cls kw w
      (World h1 (log_of w ++
                 [EvConstruct (fresh (dom (heap_of w)))
                    (descriptor_kwargs (bind_kwargs kw))])
             (refusal_of w),
       inl e)
| OutHookRaised (c : addr) (h1 h2 : heap) (e : PyExc) :
    cls = Some (VType c) →
    sgd_init impl (descriptor_kwargs (bind_kwargs kw)) (fresh (dom (heap_of w)))
      (<[fresh (dom (heap_of w)) := ∅]> (heap_of w)) = (h1, inr ()) →
    sgd_set_name impl (fresh (dom (heap_of w))) (VType c)
      (events_namespace (bind_kwargs kw)) h1 = (h2, inl e) →
    outcome impl cls kw w
      (World h2 (log_of w ++
                 [EvConstruct (fresh (dom (heap_of w)))
                    (descriptor_kwargs (bind_kwargs kw));
                  EvSetName (fresh (dom (heap_of w))) (VType c)
                    (events_namespace (bind_kwargs kw))])
             (refusal_of w),
       inl e)
| OutSetattrRaised (c : addr) (h2 : heap) (e : PyExc) :
    cls = Some (VType c) →
    bootstraps impl (bind_kwargs kw) c (heap_of w) h2 →
    refusal_of w c (events_namespace (bind_kwargs kw)) = Some e →
    outcome impl cls kw w
      (World h2 (log_of w ++
                 [EvConstruct (fresh (dom (heap_of w)))
                    (descriptor_kwargs (bind_kwargs kw));
                  EvSetName (fresh (dom (heap_of w))) (VType c)
                    (events_namespace (bind_kwargs kw));
                  EvSetattrRaised c (events_namespace (bind_kwargs kw))
                    (VObject (fresh (dom (heap_of w))))])
             (refusal_of w),
       inl e)
| OutDecorated (c : addr) (h2 : heap) :
    cls = Some (VType c) →
    bootstraps impl (bind_kwargs kw) c (heap_of w) h2 →
    refusal_of w c (events_namespace (bind_kwargs kw)) = None →
    outcome impl cls kw w
      (World (setattr c (events_namespace (bind_kwargs kw))
                (VObject (fresh (dom (heap_of w)))) h2)
             (log_of w ++
              decoration_log (bind_kwargs kw) c (fresh (dom (heap_of w))))
             (refusal_of w),
       inr (VType c)).

(** * Properties *)

(** ** Attributes *)

Lemma getattr_setattr (o : addr) (name : string) (v : value) (h : heap) :
  getattr (setattr o name v h) o name = Some v.
Proof.
  unfold getattr, setattr. rewrite lookup_insert_eq. simpl.
  apply lookup_insert_eq.
Qed.

Lemma getattr_setattr_other (o o' : addr) (name name' : string) (v : value)
    (h : heap) :
  (o', name') ≠ (o, name) →
  getattr (setattr o name v h) o' name' = getattr h o' name'.
Proof.
  intros Hne. unfold getattr, setattr.
  destruct (decide (o' = o)) as [-> | Ho].
  - rewrite lookup_insert_eq. simpl.
    rewrite lookup_insert_ne by congruence.
    destruct (h !! o); simpl; [done | apply lookup_empty].
  - by rewrite lookup_insert_ne.
Qed.

Lemma getattr_insert_other (o o' : addr) (name : string)
    (dict : gmap string value) (h : heap) :
  o' ≠ o → getattr (<[o := dict]> h) o' name = getattr h o' name.
Proof. intros Hne. unfold getattr. by rewrite lookup_insert_ne. Qed.

Lemma getattr_is_live (h : heap) (o : addr) (name : string) :
  is_Some (getattr h o name) → is_Some (h !! o).
Proof. unfold getattr. destruct (h !! o); [by eexists | by intros [? ?]]. Qed.

Lemma fresh_not_live (h : heap) (o : addr) :
  is_Some (h !! o) → o ≠ fresh (dom h).
Proof.
  intros Hlive ->. apply elem_of_dom in Hlive. by apply is_fresh in Hlive.
Qed.

(** ** The paths of [_decorate] *)

Section Facts.

Variable impl : descriptor_class.

Lemma decorate_non_class (env : locals) (v : value) (w : world) :
  isinstance_type v = false →
  _decorate impl env v w =
    (w, inl (TypeError "evented can only be used on classes")).
Proof. intros Hv. unfold _decorate. by rewrite Hv. Qed.

(** On a class, the outcome follows the constructor's, the hook's and the
    [setattr]'s. *)
Lemma decorate_class (env : locals) (c : addr) (w : world) :
  _decorate impl env (VType c) w =
    let d := fresh (dom (heap_of w)) in
    let kw := descriptor_kwargs env in
    let ns := events_namespace env in
    match sgd_init impl kw d (<[d := ∅]> (heap_of w)) with
    | (h1, inl e) =>
        (World h1 (log_of w ++ [EvConstruct d kw]) (refusal_of w), inl e)
    | (h1, inr _) =>
        match sgd_set_name impl d (VType c) ns h1 with
        | (h2, inl e) =>
            (World h2 (log_of w ++ [EvConstruct d kw; EvSetName d (VType c) ns])
                   (refusal_of w),
             inl e)
        | (h2, inr _) =>
            match refusal_of w c ns with
            | Some e =>
                (World h2
                   (log_of w ++ [EvConstruct d kw; EvSetName d (VType c) ns;
                                 EvSetattrRaised c ns (VObject d)])
                   (refusal_of w),
                 inl e)
            | None =>
                (World (setattr c ns (VObject d) h2)
                       (log_of w ++ decoration_log env c d)
                       (refusal_of w),
                 inr (VType c))
            end
        end
    end.
Proof.
  unfold _decorate, decoration_log, mbind, M_bind, mret, M_ret.
  unfold SignalGroupDescriptor, __set_name__, builtin_setattr. simpl.
  destruct (sgd_init impl _ _ _) as [h1 [e | []]]; simpl; [done |].
  destruct (sgd_set_name impl _ _ _ _) as [h2 [e | []]]; simpl.
  - by rewrite <- app_assoc.
  - destruct (refusal_of w c _); simpl; by rewrite <- !app_assoc.
Qed.

Lemma evented_some (v : value) (kw : kwargs) (w : world) :
  is_None v = false →
  evented impl (Some v) kw w = _decorate impl (bind_kwargs kw) v w.
Proof. intros Hv. unfold evented. simpl. by rewrite Hv. Qed.

(** A successful decoration, in full. *)
Lemma evented_class_ok (c : addr) (kw : kwargs) (w : world) (h2 : heap) :
  bootstraps impl (bind_kwargs kw) c (heap_of w) h2 →
  refusal_of w c (events_namespace (bind_kwargs kw)) = None →
  evented impl (Some (VType c)) kw w =
    (World (setattr c (events_namespace (bind_kwargs kw))
                    (VObject (fresh (dom (heap_of w)))) h2)
           (log_of w ++ decoration_log (bind_kwargs kw) c (fresh (dom (heap_of w))))
           (refusal_of w),
     inr (VType c)).
Proof.
  intros (h1 & Hinit & Hhook) Hfree.
  rewrite evented_some by done. rewrite decorate_class. cbv zeta.
  by rewrite Hinit, Hhook, Hfree.
Qed.

(** Whatever the descriptor does, the decoration of a class starts with
    the construction of a descriptor from the bound keywords. *)
Lemma evented_class_constructs (c : addr) (kw : kwargs) (w : world) :
  ∃ rest,
    log_of (evented impl (Some (VType c)) kw w).1 =
      log_of w ++
      EvConstruct (fresh (dom (heap_of w))) (descriptor_kwargs (bind_kwargs kw))
        :: rest.
Proof.
  rewrite evented_some by done. rewrite decorate_class. cbv zeta.
  destruct (sgd_init impl _ _ _) as [h1 [e | []]]; simpl; [by eexists |].
  destruct (sgd_set_name impl _ _ _ _) as [h2 [e | []]]; simpl; [by eexists |].
  destruct (refusal_of w c _); simpl; by eexists.
Qed.

(** When the constructor and the hook return, the heap they leave is the
    descriptor's heap. *)
Lemma bootstraps_descriptor_heap (env : locals) (c : addr) (h h2 : heap) :
  bootstraps impl env c h h2 → descriptor_heap impl env c h = h2.
Proof.
  intros (h1 & Hinit & Hhook). unfold descriptor_heap. cbv zeta.
  by rewrite Hinit, Hhook.
Qed.

(** Every call ends in one of the six outcomes. *)
Lemma evented_outcome (cls : option value) (kw : kwargs) (w : world) :
  outcome impl cls kw w (evented impl cls kw w).
Proof.
  destruct cls as [v |]; [| by apply OutFunction].
  destruct (is_None v) eqn:Hnone.
  { destruct v; try discriminate. by apply OutFunction. }
  rewrite evented_some by done.
  destruct (isinstance_type v) eqn:Hcls.
  - destruct v; try discriminate. rewrite decorate_class. cbv zeta.
    destruct (sgd_init impl _ _ _) as [h1 [e | []]] eqn:Hinit.
    + by eapply OutConstructorRaised.
    + destruct (sgd_set_name impl _ _ _ _) as [h2 [e | []]] eqn:Hhook.
      * by eapply OutHookRaised.
      * destruct (refusal_of w c _) as [e |] eqn:Hfree.
        -- eapply OutSetattrRaised; [done | by exists h1 | done].
        -- eapply OutDecorated; [done | by exists h1 | done].
  - rewrite decorate_non_class by done. by eapply OutNotClass.
Qed.

(** The decorator itself has no guard against a class that is already
    decorated: when the namespace attribute of the class is bound to a
    live object, the constructor and the hook of the new descriptor return
    and the class accepts the assignment, the attribute is bound anew, to
    the descriptor just constructed, which is another object. *)
Lemma evented_rebinds_when_accepted (c d1 : addr) (kw : kwargs) (w : world)
    (h2 : heap) :
  getattr (heap_of w) c (events_namespace (bind_kwargs kw)) = Some (VObject d1) →
  is_Some (heap_of w !! d1) →
  bootstraps impl (bind_kwargs kw) c (heap_of w) h2 →
  refusal_of w c (events_namespace (bind_kwargs kw)) = None →
  ∃ w' d2,
    evented impl (Some (VType c)) kw w = (w', inr (VType c)) ∧
    d2 ≠ d1 ∧
    getattr (heap_of w') c (events_namespace (bind_kwargs kw)) = Some (VObject d2).
Proof.
  intros _ Hlive Hboot Hfree.
  eexists _, (fresh (dom (heap_of w))).
  split; [by apply evented_class_ok |]. simpl.
  split; [| apply getattr_setattr].
  intros Heq. by apply (fresh_not_live _ _ Hlive).
Qed.

End Facts.

(** ** The descriptor class of the spec *)

(** A configured owner is refused, and nothing is changed. *)
Lemma lazy_set_name_configured (self c : addr) (name : string) (h : heap) :
  configured h c →
  lazy_set_name self (VType c) name h =
    (h, inl (ConfigurationError "class is already evented")).
Proof. intros [v Hv]. unfold lazy_set_name. by rewrite Hv. Qed.

(** An owner that is accepted is marked. *)
Lemma lazy_set_name_marks (self c : addr) (name : string) (h h2 : heap) :
  lazy_set_name self (VType c) name h = (h2, inr ()) →
  getattr h2 c PSYGNAL_GROUP_NAME = Some (VStr name).
Proof.
  unfold lazy_set_name.
  destruct (getattr h c PSYGNAL_GROUP_NAME); [discriminate |].
  destruct (getattr h c "__dataclass_fields__") as [[] |]; try discriminate.
  destruct (name_table _ _ _); [| discriminate].
  intros [= <-]. apply getattr_setattr.
Qed.

(** A class decorated with the descriptor of the spec is marked: the
    [setattr] of the decorator does not remove the mark. *)
Lemma evented_lazy_configures (c : addr) (kw : kwargs) (w w1 : world) (v : value) :
  evented lazy_descriptor (Some (VType c)) kw w = (w1, inr v) →
  configured (heap_of w1) c ∧
  getattr (heap_of w1) c (events_namespace (bind_kwargs kw))
    = Some (VObject (fresh (dom (heap_of w)))).
Proof.
  intros Hrun. pose proof (evented_outcome lazy_descriptor (Some (VType c)) kw w) as Hout.
  rewrite Hrun in Hout.
  inversion Hout as [Hnone | | | | | c' h2 Hc (h1 & Hinit & Hhook) Hfree];
    [discriminate Hnone |]; subst.
  injection Hc as <-. cbn [heap_of fst]. split; [| apply getattr_setattr].
  apply lazy_set_name_marks in Hhook. unfold configured.
  change (default "events" (kw_events_namespace kw))
    with (events_namespace (bind_kwargs kw)).
  destruct (decide (events_namespace (bind_kwargs kw) = PSYGNAL_GROUP_NAME))
    as [Heq | Hne].
  - rewrite Heq, getattr_setattr. by eexists.
  - rewrite getattr_setattr_other by congruence. rewrite Hhook. by eexists.
Qed.

(** Decorating a configured class with the descriptor of the spec: the
    new descriptor is constructed, its hook refuses the class, and the
    decorator stores nothing. *)
Lemma evented_lazy_configured (c : addr) (kw : kwargs) (w : world) :
  configured (heap_of w) c →
  evented lazy_descriptor (Some (VType c)) kw w =
    (World (lazy_init (descriptor_kwargs (bind_kwargs kw)) (fresh (dom (heap_of w)))
              (<[fresh (dom (heap_of w)) := ∅]> (heap_of w))).1
           (log_of w ++
            [EvConstruct (fresh (dom (heap_of w))) (descriptor_kwargs (bind_kwargs kw));
             EvSetName (fresh (dom (heap_of w))) (VType c)
               (events_namespace (bind_kwargs kw))])
           (refusal_of w),
     inl (ConfigurationError "class is already evented")).
Proof.
  intros Hconf. rewrite evented_some by done. rewrite decorate_class. cbv zeta.
  pose proof (fresh_not_live _ _ (getattr_is_live _ _ _ Hconf)) as Hne.
  change (sgd_init lazy_descriptor) with lazy_init.
  change (sgd_set_name lazy_descriptor) with lazy_set_name.
  set (made := lazy_init _ _ _).
  assert (made = (made.1, inr ())) as -> by reflexivity.
  rewrite lazy_set_name_configured; [done |].
  unfold configured, made, lazy_init. cbn [fst].
  by rewrite !getattr_insert_other.
Qed.

(** ** The decorator *)

Section Claims.

Variable impl : descriptor_class.

(** C1 (amended): an argument that is neither [None] nor a class makes
    [evented] raise [TypeError], with the message of line 144, at once:
    no descriptor is constructed and no object is changed. *)
Theorem evented_rejects_non_class (v : value) (kw : kwargs) (w : world) :
  is_None v = false →
  isinstance_type v = false →
  evented impl (Some v) kw w =
    (w, inl (TypeError "evented can only be used on classes")).
Proof.
  intros Hnone Hcls. rewrite evented_some by done.
  by apply decorate_non_class.
Qed.

(** C3 (amended): for a class argument that accepts the assignment of
    the namespace attribute, and when the constructor and the hook of the
    descriptor return, [evented] returns that very class, and the class
    has been changed in place: its namespace attribute is bound to the
    descriptor constructed by this call, by the one [setattr] of the
    call. *)
Theorem evented_returns_same_class (c : addr) (kw : kwargs) (w : world) (h2 : heap) :
  bootstraps impl (bind_kwargs kw) c (heap_of w) h2 →
  refusal_of w c (events_namespace (bind_kwargs kw)) = None →
  let env := bind_kwargs kw in
  let d := fresh (dom (heap_of w)) in
  ∃ w',
    evented impl (Some (VType c)) kw w = (w', inr (VType c)) ∧
    heap_of w' = setattr c (events_namespace env) (VObject d) h2 ∧
    getattr (heap_of w') c (events_namespace env) = Some (VObject d) ∧
    log_of w' = log_of w ++ decoration_log env c d.
Proof.
  intros Hboot Hfree env d. eexists.
  split; [by apply evented_class_ok |]. simpl.
  split; [done | split; [apply getattr_setattr | done]].
Qed.

(** C4: when [events_namespace] is not given, the descriptor is stored
    under the class attribute [events] (the constructor and the hook of
    the descriptor returning, and the class accepting the assignment). *)
Theorem evented_default_namespace (c : addr) (kw : kwargs) (w : world) (h2 : heap) :
  kw_events_namespace kw = None →
  bootstraps impl (bind_kwargs kw) c (heap_of w) h2 →
  refusal_of w c "events" = None →
  ∃ w',
    evented impl (Some (VType c)) kw w = (w', inr (VType c)) ∧
    getattr (heap_of w') c "events" = Some (VObject (fresh (dom (heap_of w)))) ∧
    last (log_of w') = Some (EvSetattr c "events" (VObject (fresh (dom (heap_of w))))).
Proof.
  intros Hkw Hboot Hfree.
  assert (events_namespace (bind_kwargs kw) = "events") as Hns
    by (simpl; by rewrite Hkw).
  eexists. split; [apply evented_class_ok; [done | by rewrite Hns] |].
  unfold decoration_log. rewrite Hns. simpl.
  split; [apply getattr_setattr |].
  by rewrite last_app.
Qed.

(** What the constructor receives is read off the bound keywords. *)
Ltac forwarded Hkw :=
  let rest := fresh "rest" in
  let Hlog := fresh "Hlog" in
  match goal with
  | |- context [evented ?impl (Some (VType ?c)) ?kw ?w] =>
      destruct (evented_class_constructs impl c kw w) as [rest Hlog];
      eexists _, _, rest; split; [exact Hlog |]; simpl; by rewrite Hkw
  end.

(** C5: when [cache_on_instance] is not given, the constructor of the
    descriptor is called with [cache_on_instance=True], the group cached
    on the instance itself. *)
Theorem evented_default_cache_on_instance (c : addr) (kw : kwargs) (w : world) :
  kw_cache_on_instance kw = None →
  ∃ d kwd rest,
    log_of (evented impl (Some (VType c)) kw w).1 =
      log_of w ++ EvConstruct d kwd :: rest ∧
    sgd_cache_on_instance kwd = true.
Proof. intros Hkw. forwarded Hkw. Qed.

(** C6: when [signal_suffix] is not given, the constructor of the
    descriptor is called with the empty string as [signal_suffix]. *)
Theorem evented_default_signal_suffix (c : addr) (kw : kwargs) (w : world) :
  kw_signal_suffix kw = None →
  ∃ d kwd rest,
    log_of (evented impl (Some (VType c)) kw w).1 =
      log_of w ++ EvConstruct d kwd :: rest ∧
    sgd_signal_suffix kwd = "".
Proof. intros Hkw. forwarded Hkw. Qed.

(** C7: when [alias_private_fields] is not given, the constructor of the
    descriptor is called with [alias_private_fields=None], the setting
    the docstring describes as passing private field names as they are. *)
Theorem evented_default_alias_private_fields (c : addr) (kw : kwargs) (w : world) :
  kw_alias_private_fields kw = None →
  ∃ d kwd rest,
    log_of (evented impl (Some (VType c)) kw w).1 =
      log_of w ++ EvConstruct d kwd :: rest ∧
    sgd_alias_private_fields kwd = None ∧
    alias_policy_of (sgd_alias_private_fields kwd) = PassAsIs.
Proof. intros Hkw. forwarded Hkw. Qed.

(** C8: when [warn_on_no_fields] is not given, the constructor of the
    descriptor is called with [warn_on_no_fields=True]. *)
Theorem evented_default_warn_on_no_fields (c : addr) (kw : kwargs) (w : world) :
  kw_warn_on_no_fields kw = None →
  ∃ d kwd rest,
    log_of (evented impl (Some (VType c)) kw w).1 =
      log_of w ++ EvConstruct d kwd :: rest ∧
    sgd_warn_on_no_fields kwd = true.
Proof. intros Hkw. forwarded Hkw. Qed.

(** C9: without a class, [evented] returns a function and changes
    nothing; calling that function on a class is the same computation,
    with the same outcome, as calling [evented] on the class with the same
    keywords. *)
Theorem evented_curried (c : addr) (kw : kwargs) (w : world) :
  evented impl None kw w = (w, inr (VFunction (bind_kwargs kw))) ∧
  (f ← evented impl None kw; call_function impl f (VType c)) w =
    evented impl (Some (VType c)) kw w.
Proof. split; reflexivity. Qed.

(** C10: the decorator itself writes one attribute, the namespace
    attribute of the class.  Whether the call returns or raises, every
    other attribute of the class, and every attribute of every other
    object, is as the constructor and the hook of the descriptor left
    it. *)
Theorem evented_frame (c : addr) (kw : kwargs) (w : world) (o : addr) (name : string) :
  (o, name) ≠ (c, events_namespace (bind_kwargs kw)) →
  getattr (heap_of (evented impl (Some (VType c)) kw w).1) o name =
    getattr (descriptor_heap impl (bind_kwargs kw) c (heap_of w)) o name.
Proof.
  intros Hne. rewrite evented_some by done. rewrite decorate_class.
  unfold descriptor_heap. cbv zeta.
  destruct (sgd_init impl _ _ _) as [h1 [e | []]]; [done |].
  destruct (sgd_set_name impl _ _ _ _) as [h2 [e | []]]; [done |].
  destruct (refusal_of w c _); [done |]. simpl.
  by apply getattr_setattr_other.
Qed.

End Claims.

(** C2: with the descriptor of the spec, decorating a class that
    [evented] has already decorated fails at once with
    [ConfigurationError].  No second descriptor is installed: the
    decorator makes no [setattr], every object that existed is as it was,
    and the namespace attribute of the class is still bound to the first
    descriptor. *)
Theorem evented_twice_is_rejected (c : addr) (kw1 kw2 : kwargs) (w w1 : world)
    (v : value) :
  evented lazy_descriptor (Some (VType c)) kw1 w = (w1, inr v) →
  ∃ w2,
    evented lazy_descriptor (Some (VType c)) kw2 w1
      = (w2, inl (ConfigurationError "class is already evented")) ∧
    (∀ o, is_Some (heap_of w1 !! o) → heap_of w2 !! o = heap_of w1 !! o) ∧
    getattr (heap_of w2) c (events_namespace (bind_kwargs kw1))
      = Some (VObject (fresh (dom (heap_of w)))) ∧
    ∃ new, log_of w2 = log_of w1 ++ new ∧ filter is_setattr new = [].
Proof.
  intros Hrun. apply evented_lazy_configures in Hrun as [Hconf Hbound].
  eexists. split; [by apply evented_lazy_configured |].
  assert (∀ o, is_Some (heap_of w1 !! o) →
            (lazy_init (descriptor_kwargs (bind_kwargs kw2)) (fresh (dom (heap_of w1)))
               (<[fresh (dom (heap_of w1)) := ∅]> (heap_of w1))).1 !! o
            = heap_of w1 !! o) as Hkept.
  { intros o Hlive. apply fresh_not_live in Hlive. unfold lazy_init. cbn [fst].
    by rewrite !lookup_insert_ne. }
  cbn [heap_of log_of fst]. split; [exact Hkept |]. split.
  - unfold getattr. rewrite Hkept; [exact Hbound |].
    apply (getattr_is_live _ _ (events_namespace (bind_kwargs kw1))).
    rewrite Hbound. by eexists.
  - by eexists.
Qed.

(** * Further properties of the decorator *)

Section Outcomes.

Variable impl : descriptor_class.


(** X2: when [equality_operators] is not given, the constructor of the
    descriptor is called with [equality_operators=None]. *)
Theorem evented_default_equality_operators (c : addr) (kw : kwargs) (w : world) :
  kw_equality_operators kw = None →
  ∃ d kwd rest,
    log_of (evented impl (Some (VType c)) kw w).1 =
      log_of w ++ EvConstruct d kwd :: rest ∧
    sgd_equality_operators kwd = None.
Proof.
  intros Hkw. destruct (evented_class_constructs impl c kw w) as [rest Hlog].
  eexists _, _, rest. split; [exact Hlog |]. simpl. by rewrite Hkw.
Qed.

(** X3: what a call returns follows its first argument, as the two
    overloads declare (lines 27-52): without a class, or with [None], the
    function closed over the bound keywords, the world untouched; with
    anything else, that very argument, which is a class. *)
Theorem evented_return_kind (cls : option value) (kw : kwargs) (w w' : world)
    (v : value) :
  evented impl cls kw w = (w', inr v) →
  (is_None (default VNone cls) = true ∧
   v = VFunction (bind_kwargs kw) ∧ w' = w) ∨
  (∃ c, cls = Some (VType c) ∧ v = VType c).
Proof.
  intros Hrun. pose proof (evented_outcome impl cls kw w) as Hout.
  rewrite Hrun in Hout. inversion Hout; subst.
  - by left.
  - right. by eexists.
Qed.

(** X4: the function made by [evented(...)] refuses every argument that
    is not a class, [None] included, with the [TypeError] of line 144, and
    changes nothing. *)
Theorem evented_curried_rejects_non_class (kw : kwargs) (v : value) (w : world) :
  isinstance_type v = false →
  (f ← evented impl None kw; call_function impl f v) w =
    (w, inl (TypeError "evented can only be used on classes")).
Proof. intros Hv. by apply decorate_non_class. Qed.

(** X5: when [evented] raises on a class, in the constructor, in the
    hook or in the [setattr] of line 155, the decorator has stored
    nothing: the heap is the one the constructor and the hook of the
    descriptor left, no [setattr] of the decorator stored a value, and the
    returned world only extends the log. *)
Theorem evented_failure_stores_nothing (c : addr) (kw : kwargs) (w w' : world)
    (e : PyExc) :
  evented impl (Some (VType c)) kw w = (w', inl e) →
  heap_of w' = descriptor_heap impl (bind_kwargs kw) c (heap_of w) ∧
  ∃ new, log_of w' = log_of w ++ new ∧ filter is_setattr new = [].
Proof.
  intros Hrun. pose proof (evented_outcome impl (Some (VType c)) kw w) as Hout.
  rewrite Hrun in Hout.
  inversion Hout as [| v Hv Hnone Hcls | c' h1 e' Hc Hinit
                     | c' h1 h2 e' Hc Hinit Hhook | c' h2 e' Hc Hboot Hfree |];
    subst.
  - by injection Hv as <-.
  - injection Hc as <-. unfold descriptor_heap. cbv zeta. rewrite Hinit. simpl.
    split; [done |]. by eexists.
  - injection Hc as <-. unfold descriptor_heap. cbv zeta.
    rewrite Hinit, Hhook. simpl. split; [done |]. by eexists.
  - injection Hc as <-. simpl.
    split; [by rewrite (bootstraps_descriptor_heap impl _ _ _ _ Hboot) |].
    by eexists.
Qed.

(** X6: of the decorator's own calls, a [setattr] that stores its value
    is made only by a call that returns a class: it is on that class, under
    the name of the namespace, stores the descriptor constructed by the
    call, and is the last of the three steps of the call.  No other call,
    whatever its argument, stores anything by a [setattr] of the
    decorator. *)
Theorem evented_setattr_discipline (cls : option value) (kw : kwargs) (w : world)
    (new : list event) (o : addr) (name : string) (v : value) :
  log_of (evented impl cls kw w).1 = log_of w ++ new →
  EvSetattr o name v ∈ new →
  cls = Some (VType o) ∧
  name = events_namespace (bind_kwargs kw) ∧
  v = VObject (fresh (dom (heap_of w))) ∧
  (evented impl cls kw w).2 = inr (VType o) ∧
  new = decoration_log (bind_kwargs kw) o (fresh (dom (heap_of w))).
Proof.
  intros Hlog Hin. destruct (evented_outcome impl cls kw w); simpl in Hlog.
  - rewrite <- (app_nil_r (log_of w)) in Hlog at 1.
    apply app_inv_head in Hlog as <-. by apply elem_of_nil in Hin.
  - rewrite <- (app_nil_r (log_of w)) in Hlog at 1.
    apply app_inv_head in Hlog as <-. by apply elem_of_nil in Hin.
  - apply app_inv_head in Hlog as <-.
    apply list_elem_of_singleton in Hin. discriminate Hin.
  - apply app_inv_head in Hlog as <-.
    apply elem_of_cons in Hin as [Hin | Hin]; [discriminate Hin |].
    apply list_elem_of_singleton in Hin. discriminate Hin.
  - apply app_inv_head in Hlog as <-.
    apply elem_of_cons in Hin as [Hin | Hin]; [discriminate Hin |].
    apply elem_of_cons in Hin as [Hin | Hin]; [discriminate Hin |].
    apply list_elem_of_singleton in Hin. discriminate Hin.
  - apply app_inv_head in Hlog as <-. unfold decoration_log in Hin.
    apply elem_of_cons in Hin as [Hin | Hin]; [discriminate Hin |].
    apply elem_of_cons in Hin as [Hin | Hin]; [discriminate Hin |].
    apply list_elem_of_singleton in Hin. injection Hin as -> -> ->.
    by subst.
Qed.

(** X7: when [events_namespace] is given, the constructor and the hook
    of the descriptor return and the class accepts the assignment, the
    descriptor is stored under that name and [__set_name__] is told the
    same name; if the name is not [events], the decorator leaves the
    attribute [events] of the class as the descriptor's constructor and
    hook left it. *)
Theorem evented_given_namespace (c : addr) (kw : kwargs) (ns : string)
    (w : world) (h2 : heap) :
  kw_events_namespace kw = Some ns →
  bootstraps impl (bind_kwargs kw) c (heap_of w) h2 →
  refusal_of w c ns = None →
  ∃ w',
    evented impl (Some (VType c)) kw w = (w', inr (VType c)) ∧
    getattr (heap_of w') c ns = Some (VObject (fresh (dom (heap_of w)))) ∧
    EvSetName (fresh (dom (heap_of w))) (VType c) ns ∈ log_of w' ∧
    (ns ≠ "events" → getattr (heap_of w') c "events" = getattr h2 c "events").
Proof.
  intros Hkw Hboot Hfree.
  assert (events_namespace (bind_kwargs kw) = ns) as Hns
    by (simpl; by rewrite Hkw).
  eexists. split; [apply evented_class_ok; [done | by rewrite Hns] |].
  unfold decoration_log. rewrite Hns. simpl.
  split; [apply getattr_setattr |]. split.
  - apply elem_of_app. right. apply list_elem_of_further, list_elem_of_here.
  - intros Hne. apply getattr_setattr_other. congruence.
Qed.

End Outcomes.

(** ** Runs *)

(** The descriptor of the spec accepts [Person]. *)
Lemma lazy_bootstraps_Person :
  bootstraps lazy_descriptor (bind_kwargs no_kwargs) Person (heap_of world0)
    bootstrapped0.
Proof. eexists. split; reflexivity. Qed.

Lemma lazy_bootstraps_Person_signals :
  bootstraps lazy_descriptor (bind_kwargs signals_kwargs) Person (heap_of world0)
    (descriptor_heap lazy_descriptor (bind_kwargs signals_kwargs) Person
       (heap_of world0)).
Proof. eexists. split; reflexivity. Qed.

(** C1, at the integer 3. *)
Lemma evented_rejects_non_class_witness :
  is_None (VInt 3) = false ∧
  isinstance_type (VInt 3) = false ∧
  evented lazy_descriptor (Some (VInt 3)) no_kwargs world0 =
    (world0, inl (TypeError "evented can only be used on classes")).
Proof.
  split; [reflexivity |]. split; [reflexivity |].
  apply (evented_rejects_non_class lazy_descriptor (VInt 3) no_kwargs world0);
    reflexivity.
Defined.

(** C1 as stated fails: [evented(3)] raises [TypeError], which is not
    [ConfigurationError]. *)
Lemma evented_int_not_ConfigurationError :
  fails_with "TypeError" (evented lazy_descriptor (Some (VInt 3)) no_kwargs world0) ∧
  ¬ fails_with "ConfigurationError"
      (evented lazy_descriptor (Some (VInt 3)) no_kwargs world0).
Proof.
  split.
  - by eexists.
  - intros [msg Hmsg]. vm_compute in Hmsg. discriminate Hmsg.
Qed.

(** C2, at the class [Person]: decorated once, then once more. *)
Lemma evented_twice_is_rejected_witness :
  decorated_once = (decorated_once.1, inr (VType Person)) ∧
  ∃ w2,
    evented lazy_descriptor (Some (VType Person)) no_kwargs decorated_once.1
      = (w2, inl (ConfigurationError "class is already evented")) ∧
    (∀ o, is_Some (heap_of decorated_once.1 !! o) →
          heap_of w2 !! o = heap_of decorated_once.1 !! o) ∧
    getattr (heap_of w2) Person "events" = Some (VObject 6%positive) ∧
    ∃ new, log_of w2 = log_of decorated_once.1 ++ new ∧
           filter is_setattr new = [].
Proof.
  assert (evented lazy_descriptor (Some (VType Person)) no_kwargs world0
          = (decorated_once.1, inr (VType Person))) as Hrun by reflexivity.
  split; [exact Hrun |].
  exact (evented_twice_is_rejected Person no_kwargs no_kwargs world0
           decorated_once.1 (VType Person) Hrun).
Defined.

(** C3, at the class [Person] of [world0]. *)
Lemma evented_returns_same_class_witness :
  ∃ w',
    evented lazy_descriptor (Some (VType Person)) no_kwargs world0
      = (w', inr (VType Person)) ∧
    heap_of w' = setattr Person "events" (VObject 6%positive) bootstrapped0 ∧
    getattr (heap_of w') Person "events" = Some (VObject 6%positive) ∧
    log_of w' = decoration_log (bind_kwargs no_kwargs) Person 6%positive.
Proof.
  apply (evented_returns_same_class lazy_descriptor Person no_kwargs world0
           bootstrapped0); [apply lazy_bootstraps_Person | reflexivity].
Defined.

(** C3 as stated fails: [int] is a class, and [evented(int)] returns
    with no descriptor class.  If the constructor and the hook return, the
    [setattr] of line 155 raises, since no attribute of [int] can be set. *)
Lemma evented_int_never_returns :
  ¬ ∃ (impl : descriptor_class) (w' : world) (v : value),
      evented impl (Some (VType int_class)) no_kwargs world0 = (w', inr v).
Proof.
  intros (impl & w' & v & Hrun).
  pose proof (evented_outcome impl (Some (VType int_class)) no_kwargs world0) as Hout.
  rewrite Hrun in Hout.
  inversion Hout as [Hnone | | | | | c h2 Hc Hboot Hfree]; [discriminate Hnone |].
  injection Hc as <-. discriminate Hfree.
Qed.

(** C4, at the class [Person] of [world0]. *)
Lemma evented_default_namespace_witness :
  ∃ w',
    evented lazy_descriptor (Some (VType Person)) no_kwargs world0
      = (w', inr (VType Person)) ∧
    getattr (heap_of w') Person "events" = Some (VObject 6%positive) ∧
    last (log_of w') = Some (EvSetattr Person "events" (VObject 6%positive)).
Proof.
  apply (evented_default_namespace lazy_descriptor Person no_kwargs world0
           bootstrapped0);
    [reflexivity | apply lazy_bootstraps_Person | reflexivity].
Defined.

(** C5, at the class [Person] of [world0]. *)
Lemma evented_default_cache_on_instance_witness :
  ∃ d kwd rest,
    log_of decorated_once.1 = log_of world0 ++ EvConstruct d kwd :: rest ∧
    sgd_cache_on_instance kwd = true.
Proof.
  apply (evented_default_cache_on_instance lazy_descriptor Person no_kwargs
           world0). reflexivity.
Defined.

(** C6, at the class [Person] of [world0]. *)
Lemma evented_default_signal_suffix_witness :
  ∃ d kwd rest,
    log_of decorated_once.1 = log_of world0 ++ EvConstruct d kwd :: rest ∧
    sgd_signal_suffix kwd = "".
Proof.
  apply (evented_default_signal_suffix lazy_descriptor Person no_kwargs
           world0). reflexivity.
Defined.

(** C7, at the class [Person] of [world0]. *)
Lemma evented_default_alias_private_fields_witness :
  ∃ d kwd rest,
    log_of decorated_once.1 = log_of world0 ++ EvConstruct d kwd :: rest ∧
    sgd_alias_private_fields kwd = None ∧
    alias_policy_of (sgd_alias_private_fields kwd) = PassAsIs.
Proof.
  apply (evented_default_alias_private_fields lazy_descriptor Person no_kwargs
           world0). reflexivity.
Defined.

(** C8, at the class [Person] of [world0]. *)
Lemma evented_default_warn_on_no_fields_witness :
  ∃ d kwd rest,
    log_of decorated_once.1 = log_of world0 ++ EvConstruct d kwd :: rest ∧
    sgd_warn_on_no_fields kwd = true.
Proof.
  apply (evented_default_warn_on_no_fields lazy_descriptor Person no_kwargs
           world0). reflexivity.
Defined.

(** C10, at the attribute [age] of [Person]: the decoration leaves it. *)
Lemma evented_frame_witness :
  (Person, "age") ≠ (Person, "events") ∧
  getattr (heap_of decorated_once.1) Person "age" =
    getattr bootstrapped0 Person "age".
Proof.
  assert ((Person, "age") ≠ (Person, "events")) as Hne by discriminate.
  split; [exact Hne |].
  exact (evented_frame lazy_descriptor Person no_kwargs world0 Person "age" Hne).
Defined.

(** ** Runs of the further properties *)

(** X2, at the class [Person] of [world0]. *)
Lemma evented_default_equality_operators_witness :
  ∃ d kwd rest,
    log_of decorated_once.1 = log_of world0 ++ EvConstruct d kwd :: rest ∧
    sgd_equality_operators kwd = None.
Proof.
  apply (evented_default_equality_operators lazy_descriptor Person no_kwargs
           world0). reflexivity.
Defined.

(** X3, at the class [Person] of [world0]: the class comes back. *)
Lemma evented_return_kind_witness :
  (is_None (default VNone (Some (VType Person))) = true ∧
   VType Person = VFunction (bind_kwargs no_kwargs) ∧ decorated_once.1 = world0) ∨
  (∃ c, Some (VType Person) = Some (VType c) ∧ VType Person = VType c).
Proof.
  apply (evented_return_kind lazy_descriptor (Some (VType Person)) no_kwargs
           world0 decorated_once.1 (VType Person)). reflexivity.
Defined.

(** X4, at [None]: [evented()(None)] raises, where [evented(None)]
    returns the function. *)
Lemma evented_curried_rejects_non_class_witness :
  isinstance_type VNone = false ∧
  (f ← evented lazy_descriptor None no_kwargs;
   call_function lazy_descriptor f VNone) world0 =
    (world0, inl (TypeError "evented can only be used on classes")).
Proof.
  split; [reflexivity |].
  apply (evented_curried_rejects_non_class lazy_descriptor no_kwargs VNone
           world0). reflexivity.
Defined.

(** X5, at the class [Locked]: the descriptor accepts it and the
    [setattr] of line 155 raises. *)
Lemma evented_failure_stores_nothing_witness :
  decorated_Locked.2 =
    inl (AttributeError "property 'events' of 'Meta' object has no setter") ∧
  heap_of decorated_Locked.1 =
    descriptor_heap lazy_descriptor (bind_kwargs no_kwargs) Locked
      (heap_of world0) ∧
  ∃ new, log_of decorated_Locked.1 = log_of world0 ++ new ∧
         filter is_setattr new = [].
Proof.
  split; [reflexivity |].
  apply (evented_failure_stores_nothing lazy_descriptor Locked no_kwargs
           world0 decorated_Locked.1
           (AttributeError "property 'events' of 'Meta' object has no setter")).
  reflexivity.
Defined.

(** X6, at the one [setattr] of [evented(Person)]. *)
Lemma evented_setattr_discipline_witness :
  Some (VType Person) = Some (VType Person) ∧
  "events" = events_namespace (bind_kwargs no_kwargs) ∧
  VObject 6%positive = VObject (fresh (dom (heap_of world0))) ∧
  decorated_once.2 = inr (VType Person) ∧
  decoration_log (bind_kwargs no_kwargs) Person 6%positive =
    decoration_log (bind_kwargs no_kwargs) Person (fresh (dom (heap_of world0))).
Proof.
  apply (evented_setattr_discipline lazy_descriptor (Some (VType Person))
           no_kwargs world0
           (decoration_log (bind_kwargs no_kwargs) Person 6%positive)
           Person "events" (VObject 6%positive)).
  - reflexivity.
  - apply list_elem_of_further, list_elem_of_further, list_elem_of_here.
Defined.

(** X7, at [evented(Person, events_namespace="signals")]. *)
Lemma evented_given_namespace_witness :
  ∃ w',
    evented lazy_descriptor (Some (VType Person)) signals_kwargs world0
      = (w', inr (VType Person)) ∧
    getattr (heap_of w') Person "signals" = Some (VObject 6%positive) ∧
    EvSetName 6%positive (VType Person) "signals" ∈ log_of w' ∧
    ("signals" ≠ "events" →
     getattr (heap_of w') Person "events" =
       getattr (descriptor_heap lazy_descriptor (bind_kwargs signals_kwargs)
                  Person (heap_of world0)) Person "events").
Proof.
  apply (evented_given_namespace lazy_descriptor Person signals_kwargs "signals"
           world0
           (descriptor_heap lazy_descriptor (bind_kwargs signals_kwargs) Person
              (heap_of world0)));
    [reflexivity | apply lazy_bootstraps_Person_signals | reflexivity].
Defined.

(** ** More runs *)

(** A namespace of the caller's choice, and the curried form with a
    suffix, which reaches the constructor. *)
Example evented_namespace_signals :
  let w' := (evented lazy_descriptor (Some (VType Person)) signals_kwargs world0).1 in
  getattr (heap_of w') Person "signals" = Some (VObject 6%positive) ∧
  getattr (heap_of w') Person "events" = None ∧
  getattr (heap_of w') 6%positive "namespace_name" = Some (VStr "signals").
Proof. repeat split. Qed.

Example evented_curried_suffix :
  let kw := Kwargs None None None (Some false) (Some (Some true)) (Some "_changed") in
  let run := (f ← evented lazy_descriptor None kw;
              call_function lazy_descriptor f (VType Person)) world0 in
  run.2 = inr (VType Person) ∧
  head (log_of run.1) =
    Some (EvConstruct 6%positive (SGDKwargs None true false (Some true) "_changed")).
Proof. repeat split. Qed.

(** [evented(int)] with the descriptor of the spec: the hook refuses a
    class that is not a record type, before line 155 is reached. *)
Example evented_int_with_lazy_descriptor :
  (evented lazy_descriptor (Some (VType int_class)) no_kwargs world0).2 =
    inl (ConfigurationError "class is not a record type").
Proof. reflexivity. Qed.

(** [evented(Locked)]: the class is not bound, and the descriptor's hook
    had marked it before the [setattr] raised. *)
Example evented_Locked_is_marked_not_bound :
  getattr (heap_of decorated_Locked.1) Locked "events" = None ∧
  getattr (heap_of decorated_Locked.1) Locked PSYGNAL_GROUP_NAME
    = Some (VStr "events") ∧
  last (log_of decorated_Locked.1)
    = Some (EvSetattrRaised Locked "events" (VObject 6%positive)).
Proof. repeat split. Qed.

(** The naming rules on a private field: stripped, excluded, kept, and a
    collision of the stripped name with a public field. *)
Example public_name_rules :
  public_name (Some true) "_changed" "_secret" = Some "secret_changed" ∧
  public_name (Some false) "_changed" "_secret" = None ∧
  public_name None "" "_secret" = Some "_secret" ∧
  name_table (Some true) "" [("_age", name_field); ("age", age_field)] = None.
Proof. repeat split. Qed.
